(** * The configuration header [src/config/mpich2.h]

    The header is sixteen lines of C preprocessor text.  Its meaning is the
    effect it has on the macro table of the compilation unit that includes
    it, and the files it pulls in.  The development has two parts:

    - [Module Cpp]: the part of the C preprocessor the header uses
      ([#ifdef], [#ifndef], [#if], [#define] of an object-like macro,
      [#include]), as an interpreter over a directive tree.  Controlling
      expressions are token lists; they go through macro replacement and
      are parsed with the precedences of C;
    - the header itself, [mpich2_h], written as such a tree line by line,
      and the properties of [include_header]. *)

From Stdlib Require Import ZArith NArith Lia Ascii String.
From stdpp Require Import base decidable option list strings gmap fin_maps.

Local Open Scope string_scope.
Local Open Scope list_scope.
Local Open Scope N_scope.

Module Cpp.

(** ** Tokens and macros *)

(** The punctuators of the controlling expressions dealt with here. *)
Inductive punct : Type :=
| LParen | RParen                     (* (  )          *)
| Bang                                (* !             *)
| OrOr | AndAnd                       (* ||  &&        *)
| Pipe | Caret | Amp                  (* |  ^  &       *)
| EqEq | NotEq                        (* ==  !=        *)
| Lt | Gt | Le | Ge                   (* <  >  <=  >=  *)
| Question | Colon.                   (* ?  :          *)

(** Preprocessing tokens.
    - [TNum n]: an integer constant, given by its value whatever its
      spelling ([10100000], [0x20], [32u]);
    - [TId x]: an identifier;
    - [TPunct p]: one of the punctuators above;
    - [TOther s]: any other token, by its spelling: the other operators, a
      floating constant, a string literal. *)
Inductive token : Type :=
| TNum (n : N)
| TId (name : string)
| TPunct (p : punct)
| TOther (spelling : string).

(** What [#define] records for a name: the replacement list of an
    object-like macro, or parameters and replacement list of a
    function-like one. *)
Inductive replacement : Type :=
| Object (body : list token)
| Function (params : list string) (body : list token).

(** [#define X] and [#define X 1]. *)
Definition Blank : replacement := Object [].
Definition IntConst (n : N) : replacement := Object [TNum n].

#[global] Instance punct_eq_dec : EqDecision punct.
Proof. solve_decision. Defined.

#[global] Instance token_eq_dec : EqDecision token.
Proof. solve_decision. Defined.

#[global] Instance replacement_eq_dec : EqDecision replacement.
Proof. solve_decision. Defined.

Abbreviation macro_table := (gmap string replacement).

Definition is_defined (name : string) (m : macro_table) : bool :=
  match m !! name with Some _ => true | None => false end.

(** ** Controlling expressions of [#if] *)

(** Identifiers that a translator may give a meaning of its own inside
    [#if] though they are not in the macro table: [defined], the names
    that begin with an underscore ([__LINE__], [__has_include], ...), and
    the words that are operators or constants when the unit is C++. *)
Definition special_names : list string :=
  [ "defined"; "true"; "false"; "and"; "or"; "not"; "bitand"; "bitor";
    "xor"; "compl"; "not_eq"; "and_eq"; "or_eq"; "xor_eq" ].

Definition plain (x : string) : bool :=
  match x with
  | EmptyString => false
  | String c _ =>
      negb (bool_decide (c = "_"%char)) && bool_decide (x ∉ special_names)
  end.

(** Macro replacement of a token list, [None] where it leaves the part
    dealt with here.  An identifier that names an object-like macro is
    replaced by the macro's replacement list, itself rescanned with that
    name [hidden]; a hidden name stays as it is.  An identifier that names
    no macro stays if it is [plain].  Function-like macros are not dealt
    with.  [fuel] bounds the nesting of replacements, which the number of
    macros in the table bounds. *)
Fixpoint expand (m : macro_table) (fuel : nat)
  : list string -> list token -> option (list token) :=
  fix go (hidden : list string) (ts : list token) : option (list token) :=
    match ts with
    | [] => Some []
    | TId x :: rest =>
        let head :=
          if bool_decide (x ∈ hidden) then Some [TId x]
          else match m !! x with
               | None => if plain x then Some [TId x] else None
               | Some (Object body) =>
                   match fuel with
                   | O => None
                   | S fuel => expand m fuel (x :: hidden) body
                   end
               | Some (Function _ _) => None
               end in
        match head, go hidden rest with
        | Some h, Some t => Some (h ++ t)
        | _, _ => None
        end
    | t :: rest =>
        match go hidden rest with
        | Some t' => Some (t :: t')
        | None => None
        end
    end.

(** What a controlling expression is made of once macros are replaced:
    constants, names (each will count as [0]), [defined X] forms and
    punctuators. *)
Inductive item : Type :=
| INum (n : N)
| IName (x : string)
| IDefined (x : string)
| IPunct (p : punct).

Fixpoint to_items (ts : list token) : option (list item) :=
  match ts with
  | [] => Some []
  | t :: rest =>
      let head :=
        match t with
        | TNum n => Some (INum n)
        | TId x => Some (IName x)
        | TPunct p => Some (IPunct p)
        | TOther _ => None
        end in
      match head, to_items rest with
      | Some i, Some r => Some (i :: r)
      | _, _ => None
      end
  end.

(** Macro replacement of the tokens of an [#if] line: as [expand], but
    [defined X] and [defined ( X )] are taken first, their operand not
    replaced. *)
Fixpoint expand_line (m : macro_table) (fuel : nat) (ts : list token)
  : option (list item) :=
  match ts with
  | [] => Some []
  | TId x :: rest =>
      if bool_decide (x = "defined") then
        match rest with
        | TId y :: rest' =>
            match expand_line m fuel rest' with
            | Some r => Some (IDefined y :: r)
            | None => None
            end
        | TPunct LParen :: TId y :: TPunct RParen :: rest' =>
            match expand_line m fuel rest' with
            | Some r => Some (IDefined y :: r)
            | None => None
            end
        | _ => None
        end
      else
        match expand m fuel [] [TId x] ≫= to_items,
              expand_line m fuel rest with
        | Some h, Some r => Some (h ++ r)
        | _, _ => None
        end
  | t :: rest =>
      match to_items [t], expand_line m fuel rest with
      | Some h, Some r => Some (h ++ r)
      | _, _ => None
      end
  end.

(** Expressions, as parsed. *)
Inductive pp_expr : Type :=
| ENum (n : N)
| EName (x : string)
| EDefined (x : string)
| ENot (e : pp_expr)
| EBinary (p : punct) (e1 e2 : pp_expr)
| ECond (c a b : pp_expr).                  (* c ? a : b *)

(** The level of precedence of a binary operator; a higher level binds
    tighter. *)
Definition level (p : punct) : option nat :=
  match p with
  | OrOr => Some 1%nat
  | AndAnd => Some 2%nat
  | Pipe => Some 3%nat
  | Caret => Some 4%nat
  | Amp => Some 5%nat
  | EqEq | NotEq => Some 6%nat
  | Lt | Gt | Le | Ge => Some 7%nat
  | _ => None
  end.

(** Parsing by recursive descent.  [parse fuel lvl its] reads from [its] an
    expression whose operators are of level [lvl] or tighter and gives it
    with the items left: level 0 is the conditional expression, levels 1
    to 7 are the binary operators, which associate to the left, level 8
    is the unary expression.  [None] is a syntax error. *)
Fixpoint parse (fuel : nat) (lvl : nat) (its : list item) {struct fuel}
  : option (pp_expr * list item) :=
  match fuel with
  | O => None
  | S fuel =>
      match lvl with
      | O =>
          match parse fuel 1%nat its with
          | Some (c, IPunct Question :: its) =>
              match parse fuel 0%nat its with
              | Some (a, IPunct Colon :: its) =>
                  match parse fuel 0%nat its with
                  | Some (b, its) => Some (ECond c a b, its)
                  | None => None
                  end
              | _ => None
              end
          | r => r
          end
      | 8%nat =>
          match its with
          | IPunct Bang :: its =>
              match parse fuel 8%nat its with
              | Some (e, its) => Some (ENot e, its)
              | None => None
              end
          | IPunct LParen :: its =>
              match parse fuel 0%nat its with
              | Some (e, IPunct RParen :: its) => Some (e, its)
              | _ => None
              end
          | INum n :: its => Some (ENum n, its)
          | IName x :: its => Some (EName x, its)
          | IDefined x :: its => Some (EDefined x, its)
          | _ => None
          end
      | _ =>
          match parse fuel (S lvl) its with
          | Some (e, its) => more fuel lvl e its
          | None => None
          end
      end
  end
with more (fuel : nat) (lvl : nat) (acc : pp_expr) (its : list item)
  {struct fuel} : option (pp_expr * list item) :=
  match fuel with
  | O => None
  | S fuel =>
      match its with
      | IPunct p :: its' =>
          if bool_decide (level p = Some lvl) then
            match parse fuel (S lvl) its' with
            | Some (e, its'') => more fuel lvl (EBinary p acc e) its''
            | None => None
            end
          else Some (acc, its)
      | _ => Some (acc, its)
      end
  end.

Definition of_bool (b : bool) : N := if b then 1 else 0.
Definition nonzero (n : N) : bool := negb (n =? 0).

(** The meaning of the binary operators.  All values are below [2^63], so
    the signed and the unsigned reading of an operand agree. *)
Definition binary (p : punct) (x y : N) : N :=
  match p with
  | OrOr => of_bool (nonzero x || nonzero y)
  | AndAnd => of_bool (nonzero x && nonzero y)
  | Pipe => N.lor x y
  | Caret => N.lxor x y
  | Amp => N.land x y
  | EqEq => of_bool (x =? y)
  | NotEq => of_bool (negb (x =? y))
  | Lt => of_bool (x <? y)
  | Gt => of_bool (y <? x)
  | Le => of_bool (x <=? y)
  | Ge => of_bool (y <=? x)
  | _ => 0
  end.

(** The value [defined X] has. *)
Definition defined_value (m : macro_table) (x : string) : option N :=
  match m !! x with
  | Some _ => Some 1
  | None => if plain x then Some 0 else None
  end.

(** The value of an expression.  A name left by macro replacement is
    [0].  [None] for a constant of [2^63] or more and for [defined] of a
    special name. *)
Fixpoint eval (m : macro_table) (e : pp_expr) : option N :=
  match e with
  | ENum n => if n <? 2 ^ 63 then Some n else None
  | EName _ => Some 0
  | EDefined x => defined_value m x
  | ENot e =>
      match eval m e with
      | Some v => Some (of_bool (v =? 0))
      | None => None
      end
  | EBinary p e1 e2 =>
      match eval m e1, eval m e2 with
      | Some x, Some y => Some (binary p x y)
      | _, _ => None
      end
  | ECond c a b =>
      match eval m c, eval m a, eval m b with
      | Some x, Some y, Some z => Some (if nonzero x then y else z)
      | _, _, _ => None
      end
  end.

(** The value of a controlling expression: what every translator with an
    [intmax_t] of 64 bits computes for it.  [None] where the expression is
    ill-formed, or uses what is not dealt with here (another operator, a
    constant of [2^63] or more, a function-like macro, a special
    name). *)
Definition evaluate (m : macro_table) (ts : list token) : option N :=
  match expand_line m (S (size m)) ts with
  | Some its =>
      match parse (10 * length its + 10)%nat 0%nat its with
      | Some (e, []) => eval m e
      | _ => None
      end
  | None => None
  end.

(** ** Directives *)

Inductive condition : Type :=
| IfDef (name : string)             (* #ifdef NAME  *)
| IfNDef (name : string)            (* #ifndef NAME *)
| If (ts : list token).             (* #if tokens   *)

#[warnings="-register-all"]
Inductive directive : Type :=
| Define (name : string) (body : replacement)
| Include (file : string)
| Group (c : condition) (body : list directive).   (* c ... #endif *)

(** ** State of a translation *)

(** What a directive did, in the order it happened. *)
Inductive event : Type :=
| Defined (name : string) (body : replacement)
| Included (file : string).

#[global] Instance event_eq_dec : EqDecision event.
Proof. solve_decision. Defined.

Record cpp_state : Type := mk_state {
  macros : macro_table;
  log : list event
}.

(** The errors a translator reports.  After an [#if] it cannot make
    sense of it goes on, to the end of the file; at an [#include] of a
    file that is not there it stops. *)
Inductive diagnostic : Type :=
| BadExpression (ts : list token)   (* #if whose expression is ill-formed *)
| NoSuchFile (file : string).

(** A translation reaches the end without an error ([Done]), or with one
    ([Failed]), or stops at an error ([Stopped]).  [d] is the first error
    reported, [st] the state at the end or where the translation
    stopped. *)
Inductive outcome : Type :=
| Done (st : cpp_state)
| Failed (d : diagnostic) (st : cpp_state)
| Stopped (d : diagnostic) (st : cpp_state).

Definition final (o : outcome) : cpp_state :=
  match o with Done st => st | Failed _ st => st | Stopped _ st => st end.

(** [o] after [d] has been reported. *)
Definition complain (d : diagnostic) (o : outcome) : outcome :=
  match o with
  | Done st | Failed _ st => Failed d st
  | Stopped _ st => Stopped d st
  end.

Definition bind (o : outcome) (k : cpp_state -> outcome) : outcome :=
  match o with
  | Done st => k st
  | Failed d st => complain d (k st)
  | Stopped d st => Stopped d st
  end.

Notation "o >>> k" := (bind o k) (at level 50, left associativity).

(** [#define name body].  Where the name is a macro already, with another
    replacement list, translators warn and the new definition takes the
    place of the old (gcc, clang, MSVC). *)
Definition define (name : string) (body : replacement) (st : cpp_state)
  : outcome :=
  Done (mk_state (<[name := body]> (macros st))
          (log st ++ [Defined name body])).

(** What is decided at a conditional: whether its group is kept, and the
    error reported, if any. *)
Record decision : Type := mk_decision {
  kept : bool;
  complaint : option diagnostic
}.

(** What the translator at hand makes of a controlling expression that
    [evaluate] has no value for: an error and the group skipped, or kept,
    or no error at all where the expression is one that is not dealt with
    here.  Translators differ, so this is left open. *)
Class implementation : Type :=
  elsewhere : list token -> macro_table -> decision.

Definition holds `{implementation} (c : condition) (m : macro_table)
  : decision :=
  match c with
  | IfDef name => mk_decision (is_defined name m) None
  | IfNDef name => mk_decision (negb (is_defined name m)) None
  | If ts =>
      match evaluate m ts with
      | Some v => mk_decision (nonzero v) None
      | None => elsewhere ts m
      end
  end.

Section Interpreter.

Context `{implementation}.

(** The files on the include path: the effect of each on the macro
    table, [None] for a file that is not there. *)
Variable include_path : string -> option (macro_table -> macro_table).

Definition include (file : string) (st : cpp_state) : outcome :=
  match include_path file with
  | Some effect =>
      Done (mk_state (effect (macros st)) (log st ++ [Included file]))
  | None => Stopped (NoSuchFile file) st
  end.

(** Directives run in order; the directives of a group that is not
    kept are skipped without being looked at. *)
Fixpoint exec (d : directive) (st : cpp_state) : outcome :=
  match d with
  | Define name body => define name body st
  | Include file => include file st
  | Group c body =>
      let dec := holds c (macros st) in
      let o :=
        if kept dec then
          (fix go (ds : list directive) (st : cpp_state) : outcome :=
             match ds with
             | [] => Done st
             | d :: ds => exec d st >>> go ds
             end) body st
        else Done st in
      match complaint dec with
      | Some d => complain d o
      | None => o
      end
  end.

Fixpoint run (ds : list directive) (st : cpp_state) : outcome :=
  match ds with
  | [] => Done st
  | d :: ds => exec d st >>> run ds
  end.

End Interpreter.

End Cpp.

Import Cpp.

(** ** The header *)

(** The macros the header reads. *)
Definition MS_WINDOWS : string := "MS_WINDOWS".
Definition MPICH2_NUMVERSION : string := "MPICH2_NUMVERSION".
Definition ROMIO_VERSION : string := "ROMIO_VERSION".

(** The macros the header defines: its include guard and the three
    markers of the missing Fortran 90 datatype constructors. *)
Definition PyMPI_CONFIG_MPICH2_H : string := "PyMPI_CONFIG_MPICH2_H".
Definition PyMPI_MISSING_MPI_TYPE_CREATE_F90_INTEGER : string :=
  "PyMPI_MISSING_MPI_TYPE_CREATE_F90_INTEGER".
Definition PyMPI_MISSING_MPI_TYPE_CREATE_F90_REAL : string :=
  "PyMPI_MISSING_MPI_TYPE_CREATE_F90_REAL".
Definition PyMPI_MISSING_MPI_TYPE_CREATE_F90_COMPLEX : string :=
  "PyMPI_MISSING_MPI_TYPE_CREATE_F90_COMPLEX".

Definition mpich2io_h_name : string := "mpich2io.h".

(** Line 5:
    [#if !defined(MPICH2_NUMVERSION) || (MPICH2_NUMVERSION < 10100000)]. *)
Definition version_tokens : list token :=
  [ TPunct Bang; TId "defined"; TPunct LParen; TId MPICH2_NUMVERSION;
    TPunct RParen;
    TPunct OrOr;
    TPunct LParen; TId MPICH2_NUMVERSION; TPunct Lt; TNum 10100000;
    TPunct RParen ].

Definition version_test : condition := If version_tokens.

(** Lines 6 to 8. *)
Definition f90_defines : list directive :=
  [ Define PyMPI_MISSING_MPI_TYPE_CREATE_F90_INTEGER (IntConst 1);
    Define PyMPI_MISSING_MPI_TYPE_CREATE_F90_REAL (IntConst 1);
    Define PyMPI_MISSING_MPI_TYPE_CREATE_F90_COMPLEX (IntConst 1) ].

(** Lines 4 to 10. *)
Definition f90_block : directive :=
  Group (IfDef MS_WINDOWS) [ Group version_test f90_defines ].

(** Lines 12 to 14. *)
Definition romio_block : directive :=
  Group (IfNDef ROMIO_VERSION) [ Include mpich2io_h_name ].

(** The whole file, lines 1 to 16. *)
Definition mpich2_h : list directive :=
  [ Group (IfNDef PyMPI_CONFIG_MPICH2_H)
      [ Define PyMPI_CONFIG_MPICH2_H Blank;
        f90_block;
        romio_block ] ].

(** [mpich2io.h] sits next to the header and is the one file it includes.
    What it does to the macro table is a parameter, [mpich2io_h]. *)
Definition config_dir (mpich2io_h : macro_table -> macro_table)
  (file : string) : option (macro_table -> macro_table) :=
  if decide (file = mpich2io_h_name) then Some mpich2io_h else None.

(** [#include "mpich2.h"] at some point of a compilation unit. *)
Definition include_header `{implementation}
  (mpich2io_h : macro_table -> macro_table) (st : cpp_state) : outcome :=
  run (config_dir mpich2io_h) mpich2_h st.

(** The header as the first thing a compilation unit sees, the macro
    table being [env]. *)
Definition process `{implementation}
  (mpich2io_h : macro_table -> macro_table) (env : macro_table) : outcome :=
  include_header mpich2io_h (mk_state env []).

(** The header included [n] times in a row. *)
Fixpoint include_times `{implementation}
  (mpich2io_h : macro_table -> macro_table) (n : nat) (st : cpp_state)
  : outcome :=
  match n with
  | O => Done st
  | S n => include_header mpich2io_h st >>> include_times mpich2io_h n
  end.

(** ** Vocabulary of the statements *)

Definition markers : list string :=
  [ PyMPI_MISSING_MPI_TYPE_CREATE_F90_INTEGER;
    PyMPI_MISSING_MPI_TYPE_CREATE_F90_REAL;
    PyMPI_MISSING_MPI_TYPE_CREATE_F90_COMPLEX ].

Definition own_macros : list string := PyMPI_CONFIG_MPICH2_H :: markers.

Definition defines (name : string) (e : event) : bool :=
  match e with
  | Defined n _ => bool_decide (n = name)
  | Included _ => false
  end.

Definition includes (file : string) (e : event) : bool :=
  match e with
  | Included f => bool_decide (f = file)
  | Defined _ _ => false
  end.

(** How often the log has an event of a kind. *)
Definition times (p : event -> bool) (l : list event) : nat :=
  length (List.filter p l).

(** An instance of the parameter for the examples below, the file itself
    not being part of this unit: a header of declarations that is guarded
    by a macro of its own and defines no other. *)
Definition guarded_io (m : macro_table) : macro_table :=
  m ∪ {[ "PyMPI_CONFIG_MPICH2IO_H" := Blank ]}.

(** A translator for the examples below: one that reports an error for
    every controlling expression [evaluate] has no value for, and skips
    the group. *)
Definition skipping : implementation :=
  fun ts _ => mk_decision false (Some (BadExpression ts)).

(** The state right after lines 1 and 2 of a first inclusion. *)
Definition entered (st : cpp_state) : cpp_state :=
  mk_state (<[PyMPI_CONFIG_MPICH2_H := Blank]> (macros st))
    (log st ++ [Defined PyMPI_CONFIG_MPICH2_H Blank]).

(** The state after the lines among 6 to 8 that define [ns]. *)
Fixpoint mark (ns : list string) (st : cpp_state) : cpp_state :=
  match ns with
  | [] => st
  | n :: ns =>
      mark ns (mk_state (<[n := IntConst 1]> (macros st))
                 (log st ++ [Defined n (IntConst 1)]))
  end.

(** The state after line 13. *)
Definition supplemented (mpich2io_h : macro_table -> macro_table)
  (st : cpp_state) : cpp_state :=
  mk_state (mpich2io_h (macros st)) (log st ++ [Included mpich2io_h_name]).

(** What lines 4 and 5 decide on a first inclusion in state [st]: line 5
    is looked at only under line 4, and then with the guard of line 2
    defined. *)
Definition line5 `{implementation} (st : cpp_state) : decision :=
  if is_defined MS_WINDOWS (macros st)
  then holds version_test (macros (entered st))
  else mk_decision false None.

(** The state after line 10, and after line 14. *)
Definition after_line10 `{implementation} (st : cpp_state) : cpp_state :=
  if kept (line5 st) then mark markers (entered st) else entered st.

Definition after_line14 `{implementation}
  (mpich2io_h : macro_table -> macro_table) (st : cpp_state) : cpp_state :=
  if is_defined ROMIO_VERSION (macros st) then after_line10 st
  else supplemented mpich2io_h (after_line10 st).

(** [MPICH2_NUMVERSION] is not defined, or is an integer constant below
    1.1.0. *)
Definition version_below (m : macro_table) : Prop :=
  m !! MPICH2_NUMVERSION = None ∨
  ∃ z, m !! MPICH2_NUMVERSION = Some (IntConst z) ∧ z < 10100000.

(** [MPICH2_NUMVERSION] is an integer constant of 1.1.0 or more that fits
    [intmax_t]. *)
Definition version_at_least (m : macro_table) : Prop :=
  ∃ z, m !! MPICH2_NUMVERSION = Some (IntConst z)
       ∧ 10100000 ≤ z ∧ z < 2 ^ 63.

(** What the statements ask of [mpich2io.h], which is not part of this
    unit: that it does not undefine the include guard of this header, *)
Definition keeps_guard (mpich2io_h : macro_table -> macro_table) : Prop :=
  ∀ m : macro_table,
    is_Some (m !! PyMPI_CONFIG_MPICH2_H) →
    is_Some (mpich2io_h m !! PyMPI_CONFIG_MPICH2_H).

(** ... that it leaves the three markers as they are, *)
Definition keeps_markers (mpich2io_h : macro_table -> macro_table) : Prop :=
  ∀ (m : macro_table) (name : string),
    name ∈ markers → mpich2io_h m !! name = m !! name.

(** ... or, for the frame property, that it only adds macros. *)
Definition only_adds (mpich2io_h : macro_table -> macro_table) : Prop :=
  ∀ m : macro_table, m ⊆ mpich2io_h m.

(** The diagnostic a translation reported, if it did. *)
Definition verdict (o : outcome) : option diagnostic :=
  match o with Done _ => None | Failed d _ | Stopped d _ => Some d end.

(** Everything the header can do, in the order of its lines 2, 6, 7, 8
    and 13. *)
Definition header_events : list event :=
  [ Defined PyMPI_CONFIG_MPICH2_H Blank;
    Defined PyMPI_MISSING_MPI_TYPE_CREATE_F90_INTEGER (IntConst 1);
    Defined PyMPI_MISSING_MPI_TYPE_CREATE_F90_REAL (IntConst 1);
    Defined PyMPI_MISSING_MPI_TYPE_CREATE_F90_COMPLEX (IntConst 1);
    Included mpich2io_h_name ].


(** ** Sample tables *)

(** Windows builds against MPICH2 1.0.8 and 1.4.1p1, and against an
    MPICH2 that has no version number yet. *)
Definition windows_1_0_8 : macro_table :=
  <[MS_WINDOWS := Blank]> (<[MPICH2_NUMVERSION := IntConst 10008000]> ∅).

Definition windows_1_4_1 : macro_table :=
  <[MS_WINDOWS := Blank]> (<[MPICH2_NUMVERSION := IntConst 10401301]> ∅).

Definition windows_unversioned : macro_table := <[MS_WINDOWS := Blank]> ∅.

(** A build elsewhere against MPICH2 1.0.8. *)
Definition posix_1_0_8 : macro_table :=
  <[MPICH2_NUMVERSION := IntConst 10008000]> ∅.

(** A build whose [mpi.h] brought ROMIO's [mpio.h] along. *)
Definition with_romio : macro_table :=
  <[ROMIO_VERSION := IntConst 126]> windows_1_4_1.

(** The table of a unit that is already past the header's line 2. *)
Definition past_guard (m : macro_table) : macro_table :=
  <[PyMPI_CONFIG_MPICH2_H := Blank]> m.

(** A Windows build with [-DMPICH2_NUMVERSION=], the macro defined to
    nothing. *)
Definition windows_blank_version : macro_table :=
  <[MPICH2_NUMVERSION := Blank]> windows_unversioned.

(** A unit that has given one of the markers a value of its own. *)
Definition with_integer_1 (m : macro_table) : macro_table :=
  <[PyMPI_MISSING_MPI_TYPE_CREATE_F90_INTEGER := IntConst 1]> m.

Definition with_integer_2 (m : macro_table) : macro_table :=
  <[PyMPI_MISSING_MPI_TYPE_CREATE_F90_INTEGER := IntConst 2]> m.


(** Windows builds whose version macro is an expression:
    [#define MPICH2_NUMVERSION 0x1000000 | 0x20], of value 16777248,
    [#define MPICH2_NUMVERSION 1 ? 20000000 : 0], of value 20000000, and
    [#define MPICH2_NUMVERSION 5 == 5], of value 1. *)
Definition flags_version : list token :=
  [ TNum 16777216; TPunct Pipe; TNum 32 ].

Definition conditional_version : list token :=
  [ TNum 1; TPunct Question; TNum 20000000; TPunct Colon; TNum 0 ].

Definition windows_conditional_version : macro_table :=
  <[MPICH2_NUMVERSION := Object conditional_version]> windows_unversioned.

Definition windows_flags_version : macro_table :=
  <[MPICH2_NUMVERSION := Object flags_version]> windows_unversioned.

Definition equal_version : list token :=
  [ TNum 5; TPunct EqEq; TNum 5 ].

Definition windows_equal_version : macro_table :=
  <[MPICH2_NUMVERSION := Object equal_version]> windows_unversioned.



(** ** Proof scripts *)

Ltac not_a_marker :=
  let H := fresh in
  unfold markers; intros H;
  repeat (apply elem_of_cons in H as [H|H]; [done|]);
  by apply elem_of_nil in H.

Ltac each_marker H :=
  unfold markers in H;
  repeat (apply elem_of_cons in H as [->|H]);
  [..|by apply elem_of_nil in H].

(** * Properties *)

(** ** Line 5 *)

(** Macro replacement on line 5 touches the one identifier of the
    comparison; the operand of [defined] stays. *)
Lemma expand_version_tokens (m : macro_table) fuel :
  expand_line m fuel version_tokens
  = match expand m fuel [] [TId MPICH2_NUMVERSION] ≫= to_items with
    | Some h =>
        Some ([ IPunct Bang; IDefined MPICH2_NUMVERSION; IPunct OrOr;
                IPunct LParen ]
              ++ h ++ [ IPunct Lt; INum 10100000; IPunct RParen ])
    | None => None
    end.
Proof.
  unfold version_tokens. cbn [expand_line].
  rewrite (bool_decide_eq_true_2 ("defined" = "defined")) by done.
  rewrite (bool_decide_eq_false_2 (MPICH2_NUMVERSION = "defined")) by done.
  by destruct (expand m fuel [] [TId MPICH2_NUMVERSION] ≫= to_items).
Qed.

(** Line 5 where a constant or a name takes the place of the version
    macro: a disjunction of a negation and a comparison. *)
Lemma parse_version_num (n : N) :
  parse 90 0
    [ IPunct Bang; IDefined MPICH2_NUMVERSION; IPunct OrOr; IPunct LParen;
      INum n; IPunct Lt; INum 10100000; IPunct RParen ]
  = Some (EBinary OrOr (ENot (EDefined MPICH2_NUMVERSION))
            (EBinary Lt (ENum n) (ENum 10100000)), []).
Proof. by vm_compute. Qed.

Lemma parse_version_name (x : string) :
  parse 90 0
    [ IPunct Bang; IDefined MPICH2_NUMVERSION; IPunct OrOr; IPunct LParen;
      IName x; IPunct Lt; INum 10100000; IPunct RParen ]
  = Some (EBinary OrOr (ENot (EDefined MPICH2_NUMVERSION))
            (EBinary Lt (EName x) (ENum 10100000)), []).
Proof. by vm_compute. Qed.

(** Replacement of a name that is no macro, and of one that stands for a
    constant. *)
Lemma expand_name (m : macro_table) fuel hidden x :
  x ∉ hidden → m !! x = None → plain x = true →
  expand m fuel hidden [TId x] = Some [TId x].
Proof.
  intros Hh Hx Hp. destruct fuel; cbn [expand];
    by rewrite bool_decide_eq_false_2, Hx, Hp.
Qed.

Lemma expand_constant (m : macro_table) fuel hidden n :
  expand m fuel hidden [TNum n] = Some [TNum n].
Proof. by destruct fuel. Qed.

Lemma expand_macro (m : macro_table) fuel hidden x body :
  x ∉ hidden → m !! x = Some (Object body) →
  expand m (S fuel) hidden [TId x]
  = match expand m fuel (x :: hidden) body with
    | Some h => Some (h ++ [])
    | None => None
    end.
Proof.
  intros Hh Hx. cbn [expand]. by rewrite bool_decide_eq_false_2, Hx.
Qed.

Lemma plain_version_name : plain MPICH2_NUMVERSION = true.
Proof. by vm_compute. Qed.

(** The value of line 5 without a version number: [defined] gives [0],
    the identifier in the comparison counts as [0]. *)
Lemma evaluate_version_undefined (m : macro_table) :
  m !! MPICH2_NUMVERSION = None →
  evaluate m version_tokens = Some 1.
Proof.
  intros Hv. unfold evaluate.
  rewrite expand_version_tokens, expand_name;
    [|apply not_elem_of_nil|done|apply plain_version_name].
  cbn [mbind option_bind to_items app].
  change (10 * length _ + 10)%nat with 90%nat.
  rewrite parse_version_name. cbn [eval].
  unfold defined_value. by rewrite Hv, plain_version_name.
Qed.

(** ... where the version macro is an integer constant, ... *)
Lemma evaluate_version_constant (m : macro_table) n :
  m !! MPICH2_NUMVERSION = Some (IntConst n) →
  n < 2 ^ 63 →
  evaluate m version_tokens = Some (of_bool (n <? 10100000)).
Proof.
  intros Hv Hn. unfold evaluate.
  rewrite expand_version_tokens, (expand_macro _ _ _ _ [TNum n]);
    [|apply not_elem_of_nil|done].
  rewrite expand_constant.
  cbn [mbind option_bind to_items app].
  change (10 * length _ + 10)%nat with 90%nat.
  rewrite parse_version_num. cbn [eval].
  unfold defined_value. rewrite Hv.
  rewrite (proj2 (N.ltb_lt n (2 ^ 63)) Hn).
  replace (10100000 <? 2 ^ 63) with true by (symmetry; by apply N.ltb_lt).
  unfold binary. by destruct (n <? 10100000).
Qed.



Section Line5.

Context `{implementation}.

Lemma holds_version_test_undefined (m : macro_table) :
  m !! MPICH2_NUMVERSION = None →
  holds version_test m = mk_decision true None.
Proof.
  intros Hv. unfold holds, version_test.
  by rewrite evaluate_version_undefined.
Qed.

Lemma holds_version_test_constant (m : macro_table) n :
  m !! MPICH2_NUMVERSION = Some (IntConst n) →
  n < 2 ^ 63 →
  holds version_test m = mk_decision (n <? 10100000) None.
Proof.
  intros Hv Hn. unfold holds, version_test.
  rewrite (evaluate_version_constant m n) by done.
  by destruct (n <? 10100000).
Qed.



End Line5.

(** ** The interpreter *)

Section InterpreterFacts.

Context `{implementation}.

Variable include_path : string -> option (macro_table -> macro_table).

Lemma exec_group c body st :
  exec include_path (Group c body) st =
  let o := if kept (holds c (macros st))
           then run include_path body st else Done st in
  match complaint (holds c (macros st)) with
  | Some d => complain d o
  | None => o
  end.
Proof.
  cbn [exec]. cbv zeta.
  assert (Hrun : ∀ st,
            (fix go (ds : list directive) (st : cpp_state) : outcome :=
               match ds with
               | [] => Done st
               | d :: ds => exec include_path d st >>> go ds
               end) body st = run include_path body st).
  { clear st. induction body as [|d ds IH]; intros st; cbn; [done|].
    destruct (exec include_path d st); cbn; by rewrite ?IH. }
  by rewrite Hrun.
Qed.

Lemma bind_done o : o >>> Done = o.
Proof. by destruct o. Qed.

End InterpreterFacts.

(** ** The header, block by block *)

Lemma is_defined_Some name (m : macro_table) :
  is_defined name m = true ↔ is_Some (m !! name).
Proof.
  unfold is_defined. destruct (m !! name) as [b|].
  - split; [by exists b | done].
  - split; [done | by intros [b ?]].
Qed.

Lemma is_defined_None name (m : macro_table) :
  is_defined name m = false ↔ m !! name = None.
Proof. unfold is_defined. by destruct (m !! name). Qed.

Lemma guard_not_marker : PyMPI_CONFIG_MPICH2_H ∉ markers.
Proof. not_a_marker. Qed.

Lemma windows_not_marker : MS_WINDOWS ∉ markers.
Proof. not_a_marker. Qed.

Lemma version_not_marker : MPICH2_NUMVERSION ∉ markers.
Proof. not_a_marker. Qed.

Lemma romio_not_marker : ROMIO_VERSION ∉ markers.
Proof. not_a_marker. Qed.

Lemma entered_lookup_ne st k :
  k ≠ PyMPI_CONFIG_MPICH2_H → macros (entered st) !! k = macros st !! k.
Proof. intros Hk. unfold entered. cbn [macros]. by rewrite lookup_insert_ne. Qed.

Lemma entered_lookup_guard st :
  macros (entered st) !! PyMPI_CONFIG_MPICH2_H = Some Blank.
Proof. unfold entered. cbn [macros]. apply lookup_insert_eq. Qed.

Lemma mark_lookup_notin ns st k :
  k ∉ ns → macros (mark ns st) !! k = macros st !! k.
Proof.
  revert st. induction ns as [|n ns IH]; intros st Hk; [done|].
  apply not_elem_of_cons in Hk as [Hne Hk]. cbn [mark].
  rewrite IH by done. cbn [macros]. by rewrite lookup_insert_ne.
Qed.

Lemma mark_lookup_in ns st k :
  k ∈ ns → macros (mark ns st) !! k = Some (IntConst 1).
Proof.
  revert st. induction ns as [|n ns IH]; intros st Hk.
  - by apply elem_of_nil in Hk.
  - cbn [mark]. destruct (decide (k ∈ ns)) as [Hin|Hnotin]; [by apply IH|].
    apply elem_of_cons in Hk as [->|Hin]; [|done].
    rewrite mark_lookup_notin by done. cbn [macros]. apply lookup_insert_eq.
Qed.

Lemma mark_log ns st :
  log (mark ns st) = log st ++ map (λ n, Defined n (IntConst 1)) ns.
Proof.
  revert st. induction ns as [|n ns IH]; intros st; cbn [mark map].
  - by rewrite app_nil_r.
  - rewrite IH. cbn [log]. by rewrite <- app_assoc.
Qed.

Section Blocks.

Context `{implementation}.

Variable mpich2io_h : macro_table -> macro_table.

Let path := config_dir mpich2io_h.

(** Lines 6 to 8 always go through. *)
Lemma f90_defines_eq st : run path f90_defines st = Done (mark markers st).
Proof. reflexivity. Qed.

(** What the state after line 10 holds. *)
Lemma after_line10_log st :
  log (after_line10 st)
  = log st ++ Defined PyMPI_CONFIG_MPICH2_H Blank
      :: (if kept (line5 st)
          then map (λ n, Defined n (IntConst 1)) markers else []).
Proof.
  unfold after_line10. destruct (kept (line5 st)).
  - rewrite mark_log. unfold entered. cbn [log]. by rewrite <- app_assoc.
  - done.
Qed.

Lemma after_line10_guard st :
  macros (after_line10 st) !! PyMPI_CONFIG_MPICH2_H = Some Blank.
Proof.
  unfold after_line10. destruct (kept (line5 st)).
  - rewrite mark_lookup_notin by apply guard_not_marker.
    apply entered_lookup_guard.
  - apply entered_lookup_guard.
Qed.

Lemma after_line10_marker st name :
  name ∈ markers →
  macros (after_line10 st) !! name
  = if kept (line5 st) then Some (IntConst 1) else macros st !! name.
Proof.
  intros Hin. unfold after_line10. destruct (kept (line5 st)).
  - by apply mark_lookup_in.
  - apply entered_lookup_ne. intros ->. by apply guard_not_marker.
Qed.

Lemma after_line10_other st name :
  name ∉ own_macros →
  macros (after_line10 st) !! name = macros st !! name.
Proof.
  intros Hname. apply not_elem_of_cons in Hname as [Hne Hname].
  unfold after_line10. destruct (kept (line5 st)).
  - by rewrite mark_lookup_notin, entered_lookup_ne.
  - by rewrite entered_lookup_ne.
Qed.

Lemma after_line10_romio st :
  is_defined ROMIO_VERSION (macros (after_line10 st))
  = is_defined ROMIO_VERSION (macros st).
Proof.
  unfold is_defined. rewrite after_line10_other; [done|].
  intros Hin. apply elem_of_cons in Hin as [?|Hin]; [done|].
  by apply romio_not_marker.
Qed.

Lemma f90_block_eq st :
  exec path f90_block (entered st)
  = match complaint (line5 st) with
    | Some d => Failed d (after_line10 st)
    | None => Done (after_line10 st)
    end.
Proof.
  unfold f90_block. rewrite exec_group. cbn [holds kept complaint]. cbv zeta.
  unfold after_line10, line5.
  replace (is_defined MS_WINDOWS (macros (entered st)))
    with (is_defined MS_WINDOWS (macros st))
    by (unfold is_defined; by rewrite entered_lookup_ne).
  destruct (is_defined MS_WINDOWS (macros st)); [|done].
  cbn [run]. rewrite exec_group. cbv zeta. rewrite f90_defines_eq.
  destruct (holds version_test (macros (entered st))) as [[] [d|]]; done.
Qed.

Lemma romio_block_eq st :
  exec path romio_block st
  = Done (if is_defined ROMIO_VERSION (macros st) then st
          else supplemented mpich2io_h st).
Proof.
  unfold romio_block. rewrite exec_group. cbn [holds kept complaint]. cbv zeta.
  destruct (is_defined _ _); cbn [negb]; [done|].
  cbn [run exec]. unfold include, path, config_dir.
  by rewrite decide_True.
Qed.

(** The whole file in one equation. *)
Lemma include_header_eq st :
  include_header mpich2io_h st =
  if is_defined PyMPI_CONFIG_MPICH2_H (macros st) then Done st
  else match complaint (line5 st) with
       | Some d => Failed d (after_line14 mpich2io_h st)
       | None => Done (after_line14 mpich2io_h st)
       end.
Proof.
  unfold include_header, mpich2_h. cbn [run]. rewrite exec_group.
  cbn [holds kept complaint]. cbv zeta.
  destruct (is_defined PyMPI_CONFIG_MPICH2_H (macros st)); cbn [negb bind];
    [done|].
  cbn [run exec define bind]. fold (entered st). fold path.
  rewrite f90_block_eq.
  unfold after_line14. rewrite <- after_line10_romio.
  destruct (complaint (line5 st)) as [d|]; cbn [bind complain final];
    by rewrite romio_block_eq.
Qed.

End Blocks.

(** ** Counting events *)

Lemma times_app p l1 l2 : times p (l1 ++ l2) = (times p l1 + times p l2)%nat.
Proof. unfold times. by rewrite List.filter_app, length_app. Qed.

Lemma times_includes_defined file body ns :
  times (includes file) (map (λ n, Defined n body) ns) = 0%nat.
Proof. by induction ns. Qed.

Lemma times_defines_markers name :
  name ∈ markers →
  times (defines name) (map (λ n, Defined n (IntConst 1)) markers) = 1%nat.
Proof. intros Hin. each_marker Hin; by vm_compute. Qed.

Lemma times_defines_guard name body :
  name ∈ markers →
  times (defines name) [Defined PyMPI_CONFIG_MPICH2_H body] = 0%nat.
Proof.
  intros Hin.
  assert (PyMPI_CONFIG_MPICH2_H ≠ name) by (intros <-; by apply guard_not_marker).
  unfold times. cbn. by rewrite bool_decide_eq_false_2.
Qed.

(** ** The whole file *)

Section Whole.

Context `{implementation}.

Variable mpich2io_h : macro_table -> macro_table.

Lemma final_include_header st :
  final (include_header mpich2io_h st)
  = if is_defined PyMPI_CONFIG_MPICH2_H (macros st) then st
    else after_line14 mpich2io_h st.
Proof.
  rewrite include_header_eq.
  destruct (is_defined _ _); [done|]. by destruct (complaint (line5 st)).
Qed.

Lemma verdict_include_header st :
  verdict (include_header mpich2io_h st)
  = if is_defined PyMPI_CONFIG_MPICH2_H (macros st) then None
    else complaint (line5 st).
Proof.
  rewrite include_header_eq.
  destruct (is_defined _ _); [done|]. by destruct (complaint (line5 st)).
Qed.

(** An inclusion goes to the end of the header. *)
Lemma outcome_eq st :
  include_header mpich2io_h st
  = match verdict (include_header mpich2io_h st) with
    | Some d => Failed d (final (include_header mpich2io_h st))
    | None => Done (final (include_header mpich2io_h st))
    end.
Proof.
  rewrite include_header_eq.
  destruct (is_defined _ _); [done|]. by destruct (complaint (line5 st)).
Qed.

Lemma after_line14_log st :
  log (after_line14 mpich2io_h st)
  = log (after_line10 st)
    ++ (if is_defined ROMIO_VERSION (macros st) then []
        else [Included mpich2io_h_name]).
Proof.
  unfold after_line14. destruct (is_defined ROMIO_VERSION (macros st)).
  - by rewrite app_nil_r.
  - done.
Qed.

(** How often a first inclusion defines a marker, and includes
    [mpich2io.h]. *)
Lemma after_line14_defines st name :
  name ∈ markers →
  times (defines name) (log (after_line14 mpich2io_h st))
  = (times (defines name) (log st) + if kept (line5 st) then 1 else 0)%nat.
Proof.
  intros Hin. rewrite after_line14_log, after_line10_log.
  rewrite !times_app.
  change (Defined PyMPI_CONFIG_MPICH2_H Blank :: ?l)
    with ([Defined PyMPI_CONFIG_MPICH2_H Blank] ++ l).
  rewrite times_app, times_defines_guard by done.
  assert (times (defines name)
            (if is_defined ROMIO_VERSION (macros st) then []
             else [Included mpich2io_h_name]) = 0%nat) as ->
    by by destruct (is_defined ROMIO_VERSION (macros st)).
  destruct (kept (line5 st)).
  - rewrite times_defines_markers by done. lia.
  - change (times (defines name) []) with 0%nat. lia.
Qed.

Lemma after_line14_includes st :
  times (includes mpich2io_h_name) (log (after_line14 mpich2io_h st))
  = (times (includes mpich2io_h_name) (log st)
     + if is_defined ROMIO_VERSION (macros st) then 0 else 1)%nat.
Proof.
  rewrite after_line14_log, after_line10_log. rewrite !times_app.
  change (Defined PyMPI_CONFIG_MPICH2_H Blank :: ?l)
    with ([Defined PyMPI_CONFIG_MPICH2_H Blank] ++ l).
  rewrite times_app.
  assert (times (includes mpich2io_h_name)
            (if kept (line5 st)
             then map (λ n, Defined n (IntConst 1)) markers else [])
          = 0%nat) as ->
    by (destruct (kept (line5 st)); [apply times_includes_defined|done]).
  assert (times (includes mpich2io_h_name)
            [Defined PyMPI_CONFIG_MPICH2_H Blank] = 0%nat) as -> by done.
  assert (times (includes mpich2io_h_name) [Included mpich2io_h_name]
          = 1%nat) as Hone by by vm_compute.
  destruct (is_defined ROMIO_VERSION (macros st)); rewrite ?Hone;
    change (times (includes mpich2io_h_name) []) with 0%nat; lia.
Qed.

(** What lines 4 and 5 decide in the plain cases. *)
Lemma line5_other_platform st :
  macros st !! MS_WINDOWS = None → line5 st = mk_decision false None.
Proof. intros Hw. unfold line5. by rewrite (proj2 (is_defined_None _ _) Hw). Qed.

Lemma line5_below st :
  is_Some (macros st !! MS_WINDOWS) → version_below (macros st) →
  line5 st = mk_decision true None.
Proof.
  intros Hw Hb. unfold line5. rewrite (proj2 (is_defined_Some _ _) Hw).
  destruct Hb as [Hv|(z & Hv & Hz)].
  - apply holds_version_test_undefined. by rewrite entered_lookup_ne.
  - rewrite (holds_version_test_constant _ z).
    + by rewrite (proj2 (N.ltb_lt _ _) Hz).
    + by rewrite entered_lookup_ne.
    + eapply N.lt_trans; [exact Hz|]. by apply N.ltb_lt.
Qed.

Lemma line5_at_least st :
  version_at_least (macros st) → line5 st = mk_decision false None.
Proof.
  intros (z & Hv & Hz & Hr). unfold line5.
  destruct (is_defined MS_WINDOWS (macros st)); [|done].
  rewrite (holds_version_test_constant _ z); [|by rewrite entered_lookup_ne|done].
  by rewrite (proj2 (N.ltb_ge _ _) Hz).
Qed.

End Whole.

(** ** What the header does to a compilation unit *)

Section Header.

Context `{implementation}.

Variable mpich2io_h : macro_table -> macro_table.

Lemma process_final env :
  final (process mpich2io_h env)
  = if is_defined PyMPI_CONFIG_MPICH2_H env then mk_state env []
    else after_line14 mpich2io_h (mk_state env []).
Proof. apply final_include_header. Qed.

Lemma process_verdict env :
  verdict (process mpich2io_h env)
  = if is_defined PyMPI_CONFIG_MPICH2_H env then None
    else complaint (line5 (mk_state env [])).
Proof. apply verdict_include_header. Qed.

(** A processing that reports nothing is [Done]. *)
Lemma process_done env :
  verdict (process mpich2io_h env) = None →
  process mpich2io_h env = Done (final (process mpich2io_h env)).
Proof. intros Hv. unfold process in *. rewrite outcome_eq at 1. by rewrite Hv.
Qed.

(** How often a processing defines a marker and includes [mpich2io.h]:
    read off the guard and the decision of lines 4 and 5, and off the
    guard and [ROMIO_VERSION]. *)
Lemma process_defines env name :
  name ∈ markers →
  times (defines name) (log (final (process mpich2io_h env)))
  = if negb (is_defined PyMPI_CONFIG_MPICH2_H env)
       && kept (line5 (mk_state env []))
    then 1%nat else 0%nat.
Proof.
  intros Hin. rewrite process_final.
  destruct (is_defined PyMPI_CONFIG_MPICH2_H env); cbn [negb andb]; [done|].
  rewrite after_line14_defines by done. cbn [log].
  by destruct (kept (line5 _)).
Qed.

Lemma process_includes env :
  times (includes mpich2io_h_name) (log (final (process mpich2io_h env)))
  = if is_defined PyMPI_CONFIG_MPICH2_H env || is_defined ROMIO_VERSION env
    then 0%nat else 1%nat.
Proof.
  rewrite process_final.
  destruct (is_defined PyMPI_CONFIG_MPICH2_H env); cbn [orb]; [done|].
  rewrite after_line14_includes. cbn [log macros].
  by destruct (is_defined ROMIO_VERSION env).
Qed.

(** The markers in the table after a processing, for an [mpich2io.h]
    that leaves them alone. *)
Lemma process_marker env name :
  keeps_markers mpich2io_h → name ∈ markers →
  macros (final (process mpich2io_h env)) !! name
  = if negb (is_defined PyMPI_CONFIG_MPICH2_H env)
       && kept (line5 (mk_state env []))
    then Some (IntConst 1) else env !! name.
Proof.
  intros Hkeep Hin. rewrite process_final.
  destruct (is_defined PyMPI_CONFIG_MPICH2_H env); cbn [negb andb]; [done|].
  unfold after_line14.
  destruct (is_defined ROMIO_VERSION _); unfold supplemented; cbn [macros];
    rewrite ?Hkeep by done; by rewrite after_line10_marker.
Qed.

(** Lines 4 and 5 look at [MS_WINDOWS] and at [MPICH2_NUMVERSION], and,
    the latter being an integer constant or nothing, at nothing else. *)
Lemma line5_undefined st :
  macros st !! MPICH2_NUMVERSION = None →
  line5 st = mk_decision (is_defined MS_WINDOWS (macros st)) None.
Proof.
  intros Hv. destruct (is_defined MS_WINDOWS (macros st)) eqn:Hw.
  - apply line5_below; [by apply is_defined_Some|by left].
  - by apply line5_other_platform, is_defined_None.
Qed.

Lemma line5_constant st z :
  macros st !! MPICH2_NUMVERSION = Some (IntConst z) →
  z < 2 ^ 63 →
  line5 st
  = mk_decision (is_defined MS_WINDOWS (macros st) && (z <? 10100000)) None.
Proof.
  intros Hv Hr. destruct (is_defined MS_WINDOWS (macros st)) eqn:Hw.
  - destruct (N.ltb_spec z 10100000) as [Hz|Hz]; cbn [andb].
    + apply line5_below; [by apply is_defined_Some|right; by exists z].
    + apply line5_at_least. by exists z.
  - by apply line5_other_platform, is_defined_None.
Qed.


(** *** The three markers *)

(** C3, as amended.  With [MS_WINDOWS] defined and [MPICH2_NUMVERSION]
    defined as an integer constant of at least 10100000 (and within
    [intmax_t]), processing the header defines none of the three markers:
    it completes, none of lines 6 to 8 runs, and (with an [mpich2io.h] that
    does not touch them) the markers are in the table exactly as they
    were. *)
Theorem recent_version_defines_none env z :
  is_Some (env !! MS_WINDOWS) →
  env !! MPICH2_NUMVERSION = Some (IntConst z) →
  10100000 ≤ z →
  z < 2 ^ 63 →
  ∃ st, process mpich2io_h env = Done st ∧
    (∀ name, name ∈ markers → times (defines name) (log st) = 0%nat) ∧
    (keeps_markers mpich2io_h →
     ∀ name, name ∈ markers → macros st !! name = env !! name).
Proof.
  intros Hw Hv Hz Hr.
  assert (H5 : line5 (mk_state env []) = mk_decision false None)
    by (apply line5_at_least; by exists z).
  eexists. split; [|split].
  - apply process_done. rewrite process_verdict, H5. by destruct (is_defined _ _).
  - intros name Hin. rewrite process_defines, H5 by done.
    by rewrite andb_false_r.
  - intros Hkeep name Hin. rewrite process_marker, H5 by done.
    by rewrite andb_false_r.
Qed.

(** C4.  Without [MS_WINDOWS], whatever [MPICH2_NUMVERSION] is or is not,
    processing the header defines none of the three markers: it
    completes, none of lines 6 to 8 runs, and (with an [mpich2io.h] that
    does not touch them) the markers are in the table exactly as they
    were. *)
Theorem other_platform_defines_none env :
  env !! MS_WINDOWS = None →
  ∃ st, process mpich2io_h env = Done st ∧
    (∀ name, name ∈ markers → times (defines name) (log st) = 0%nat) ∧
    (keeps_markers mpich2io_h →
     ∀ name, name ∈ markers → macros st !! name = env !! name).
Proof.
  intros Hw.
  assert (H5 : line5 (mk_state env []) = mk_decision false None)
    by by apply line5_other_platform.
  eexists. split; [|split].
  - apply process_done. rewrite process_verdict, H5. by destruct (is_defined _ _).
  - intros name Hin. rewrite process_defines, H5 by done.
    by rewrite andb_false_r.
  - intros Hkeep name Hin. rewrite process_marker, H5 by done.
    by rewrite andb_false_r.
Qed.

(** When line 5 is reached on a first inclusion and is satisfied, the
    header defines all three markers, whatever they were before. *)
Lemma old_version_defines_all env :
  env !! PyMPI_CONFIG_MPICH2_H = None →
  line5 (mk_state env []) = mk_decision true None →
  ∃ st, process mpich2io_h env = Done st ∧
    (∀ name, name ∈ markers → times (defines name) (log st) = 1%nat) ∧
    (keeps_markers mpich2io_h →
     ∀ name, name ∈ markers → macros st !! name = Some (IntConst 1)).
Proof.
  intros Hg H5. apply is_defined_None in Hg.
  eexists. split; [|split].
  - apply process_done. by rewrite process_verdict, H5, Hg.
  - intros name Hin. by rewrite process_defines, H5, Hg.
  - intros Hkeep name Hin. by rewrite process_marker, H5, Hg.
Qed.

(** C2, as amended.  In a table where the include guard is not defined
    yet: with [MS_WINDOWS] defined and [MPICH2_NUMVERSION] defined as an
    integer constant below 10100000, processing the header completes and
    defines all three markers: each of lines 6 to 8 runs once, and (with
    an [mpich2io.h] that does not touch them) the three markers are [1] in
    the table, whatever they were before. *)
Theorem old_version_defines_markers env z :
  env !! PyMPI_CONFIG_MPICH2_H = None →
  is_Some (env !! MS_WINDOWS) →
  env !! MPICH2_NUMVERSION = Some (IntConst z) →
  z < 10100000 →
  ∃ st, process mpich2io_h env = Done st ∧
    (∀ name, name ∈ markers → times (defines name) (log st) = 1%nat) ∧
    (keeps_markers mpich2io_h →
     ∀ name, name ∈ markers → macros st !! name = Some (IntConst 1)).
Proof.
  intros Hg Hw Hv Hz. apply old_version_defines_all; [done|].
  apply line5_below; [done|]. right. by exists z.
Qed.

(** C5, as amended.  With [MS_WINDOWS] defined and [MPICH2_NUMVERSION]
    not defined at all, line 5 is satisfied as it is for a version below
    the threshold, and nothing is reported; and in a table where the
    include guard is not defined yet, processing the header completes and
    defines all three markers. *)
Theorem no_version_defines_markers env :
  is_Some (env !! MS_WINDOWS) →
  env !! MPICH2_NUMVERSION = None →
  holds version_test env = mk_decision true None ∧
  (env !! PyMPI_CONFIG_MPICH2_H = None →
   ∃ st, process mpich2io_h env = Done st ∧
     (∀ name, name ∈ markers → times (defines name) (log st) = 1%nat) ∧
     (keeps_markers mpich2io_h →
      ∀ name, name ∈ markers → macros st !! name = Some (IntConst 1))).
Proof.
  intros Hw Hv. split.
  - by apply holds_version_test_undefined.
  - intros Hg. apply old_version_defines_all; [done|].
    apply line5_below; [done|]. by left.
Qed.

(** *** [mpich2io.h] *)

(** C6.  With [ROMIO_VERSION] already defined, processing the header does
    not include [mpich2io.h], however the processing ends. *)
Theorem romio_present_no_include env :
  is_Some (env !! ROMIO_VERSION) →
  times (includes mpich2io_h_name) (log (final (process mpich2io_h env)))
  = 0%nat.
Proof.
  intros Hr. apply is_defined_Some in Hr.
  rewrite process_includes, Hr. by rewrite orb_true_r.
Qed.

(** *** The include guard *)

Lemma include_header_guarded st :
  is_Some (macros st !! PyMPI_CONFIG_MPICH2_H) →
  include_header mpich2io_h st = Done st.
Proof.
  intros Hg. rewrite include_header_eq.
  apply is_defined_Some in Hg. by rewrite Hg.
Qed.

(** However an inclusion ends, it leaves the guard defined. *)
Lemma include_header_sets_guard st :
  keeps_guard mpich2io_h →
  is_Some (macros (final (include_header mpich2io_h st))
             !! PyMPI_CONFIG_MPICH2_H).
Proof.
  intros Hkeep. rewrite final_include_header.
  destruct (is_defined PyMPI_CONFIG_MPICH2_H (macros st)) eqn:Hg.
  - by apply is_defined_Some.
  - assert (is_Some (macros (after_line10 st) !! PyMPI_CONFIG_MPICH2_H))
      by (rewrite after_line10_guard; by eexists).
    unfold after_line14.
    destruct (is_defined ROMIO_VERSION (macros st)); [done|].
    unfold supplemented. cbn [macros]. by apply Hkeep.
Qed.

Lemma include_header_idem st :
  keeps_guard mpich2io_h →
  include_header mpich2io_h st >>> include_header mpich2io_h
  = include_header mpich2io_h st.
Proof.
  intros Hkeep.
  pose proof (include_header_sets_guard st Hkeep) as Hg.
  destruct (include_header mpich2io_h st) as [st'|d st'|d st'];
    cbn [bind final] in *; [by rewrite include_header_guarded..|done].
Qed.

Lemma include_times_guarded n st :
  is_Some (macros st !! PyMPI_CONFIG_MPICH2_H) →
  include_times mpich2io_h n st = Done st.
Proof.
  intros Hg. induction n as [|n IH]; [done|].
  cbn [include_times]. by rewrite include_header_guarded.
Qed.

(** Including the header again and again is including it once. *)
Lemma include_times_once n st :
  keeps_guard mpich2io_h →
  include_times mpich2io_h (S n) st = include_header mpich2io_h st.
Proof.
  intros Hkeep. cbn [include_times].
  pose proof (include_header_sets_guard st Hkeep) as Hg.
  destruct (include_header mpich2io_h st) as [st'|d st'|d st'];
    cbn [bind final] in *; [by rewrite include_times_guarded..|done].
Qed.

(** C8.  Processing the header twice in a row ends as processing it once
    does: same outcome, same macro table, same events.  The second pass
    stops at line 1, the guard being defined by the first; [mpich2io.h]
    is taken not to undefine it. *)
Theorem process_twice_is_once env :
  keeps_guard mpich2io_h →
  process mpich2io_h env >>> include_header mpich2io_h
  = process mpich2io_h env.
Proof. intros Hown. by apply include_header_idem. Qed.


(** *** The invariant of the markers *)

(** C1, as amended.  In a table in which neither the include guard nor any
    of the three markers is defined yet and [MPICH2_NUMVERSION] is
    undefined or an integer constant, and with an [mpich2io.h] that does
    not touch the markers: after the header is processed each marker is
    defined if and only if [MS_WINDOWS] is defined and
    [MPICH2_NUMVERSION] is undefined or below 10100000.  And in every
    table, with an [mpich2io.h] that keeps the guard defined: however many
    times the unit includes the header, the [#define] of a marker runs at
    most once. *)
Theorem markers_defined_iff env :
  (keeps_markers mpich2io_h →
   (∀ name, name ∈ own_macros → env !! name = None) →
   version_below env ∨ version_at_least env →
   ∀ name, name ∈ markers →
     is_Some (macros (final (process mpich2io_h env)) !! name)
     ↔ is_Some (env !! MS_WINDOWS) ∧ version_below env)
  ∧ (keeps_guard mpich2io_h →
     ∀ n name, name ∈ markers →
       (times (defines name)
          (log (final (include_times mpich2io_h n (mk_state env []))))
        ≤ 1)%nat).
Proof.
  split.
  - intros Hkeep Hfresh Hplain name Hin.
    assert (Hn : env !! name = None)
      by (by apply Hfresh, list_elem_of_further).
    assert (Hg : is_defined PyMPI_CONFIG_MPICH2_H env = false)
      by (apply is_defined_None, Hfresh; by left).
    rewrite process_marker, Hg by done. cbn [negb andb].
    destruct (env !! MS_WINDOWS) as [w|] eqn:Hw.
    + destruct Hplain as [Hb|Ha].
      * rewrite line5_below; cbn [macros kept]; [|by rewrite Hw|done].
        split; [by intros _|by eexists].
      * rewrite line5_at_least by done. cbn [kept]. rewrite Hn.
        split; [by intros []|].
        intros [_ Hb]. destruct Ha as (z & Hv & Hz & _).
        destruct Hb as [Hb|(z' & Hb & Hlt)]; [congruence|].
        assert (z' = z) by (unfold IntConst in *; congruence). lia.
    + rewrite line5_other_platform by done. cbn [kept]. rewrite Hn.
      split; [by intros []|by intros [[] _]].
  - intros Hkeep [|n] name Hin.
    + cbn. lia.
    + rewrite include_times_once by done.
      change (include_header mpich2io_h (mk_state env []))
        with (process mpich2io_h env).
      rewrite process_defines by done. destruct (_ && _); lia.
Qed.

(** *** The two blocks *)


(** *** The frame *)

(** C10, as amended.  Processing the header removes no macro, and changes
    none but a marker: every macro of the initial table that is not one
    of the three markers is there afterwards with the replacement list it
    had, and a marker that was defined is there as it was or as [1]
    ([mpich2io.h] being taken to add macros only).  What the header
    itself adds is its guard, with an empty replacement list, and the
    three markers, each with [1]; the final table is the initial one with
    those definitions, or what [mpich2io.h] makes of it. *)
Theorem header_only_adds env :
  only_adds mpich2io_h →
  let st := final (process mpich2io_h env) in
  (∀ name body, env !! name = Some body → name ∉ markers →
                macros st !! name = Some body)
  ∧ (∀ name body, env !! name = Some body → name ∈ markers →
                  macros st !! name = Some body
                  ∨ macros st !! name = Some (IntConst 1))
  ∧ ∃ m : macro_table,
      (macros st = m ∨ macros st = mpich2io_h m)
      ∧ ∀ name body, m !! name = Some body →
          env !! name = Some body
          ∨ (name = PyMPI_CONFIG_MPICH2_H ∧ body = Blank)
          ∨ (name ∈ markers ∧ body = IntConst 1).
Proof.
  intros Hadds st. subst st. rewrite process_final.
  destruct (is_defined PyMPI_CONFIG_MPICH2_H env) eqn:Hg.
  { cbn [macros]. split; [done|]. split; [by left|].
    exists env. split; [by left|auto]. }
  apply is_defined_None in Hg.
  set (m := macros (after_line10 (mk_state env []))).
  assert (Hst : macros (after_line14 mpich2io_h (mk_state env [])) = m
                ∨ macros (after_line14 mpich2io_h (mk_state env []))
                  = mpich2io_h m).
  { unfold after_line14.
    destruct (is_defined ROMIO_VERSION _); [by left|by right]. }
  assert (Hup : ∀ name body, m !! name = Some body →
            macros (after_line14 mpich2io_h (mk_state env [])) !! name
            = Some body).
  { intros name body Hm. destruct Hst as [-> | ->]; [done|].
    by eapply lookup_weaken; [|apply Hadds]. }
  split; [|split].
  - intros name body Hn Hnot. apply Hup. subst m.
    rewrite after_line10_other; [done|].
    intros Hin. apply elem_of_cons in Hin as [->|Hin]; [|done].
    cbn [macros] in *. congruence.
  - intros name body Hn Hin.
    pose proof (after_line10_marker (mk_state env []) name Hin) as Hm.
    fold m in Hm. cbn [macros] in Hm.
    destruct (kept (line5 (mk_state env []))).
    + right. by apply Hup.
    + left. apply Hup. by rewrite Hm.
  - exists m. split; [done|].
    intros name body Hm.
    destruct (decide (name = PyMPI_CONFIG_MPICH2_H)) as [->|Hne].
    { subst m. rewrite after_line10_guard in Hm. right. left.
      split; congruence. }
    destruct (decide (name ∈ markers)) as [Hin|Hnot].
    + pose proof (after_line10_marker (mk_state env []) name Hin) as Hm'.
      fold m in Hm'. cbn [macros] in Hm'.
      destruct (kept (line5 (mk_state env []))).
      * right. right. split; [done|congruence].
      * left. congruence.
    + left. subst m. rewrite after_line10_other in Hm; [done|].
      intros Hin. by apply elem_of_cons in Hin as [?|?].
Qed.

(** ** Further properties of the header *)


(** X1.  Once the guard is defined the header is inert: included any
    number of times it completes and leaves the table and the log as they
    are, whatever else the table holds. *)
Theorem guarded_header_inert n st :
  is_Some (macros st !! PyMPI_CONFIG_MPICH2_H) →
  include_times mpich2io_h n st = Done st.
Proof. apply include_times_guarded. Qed.

(** X2.  However an inclusion ends, with a diagnostic or without, the
    guard is defined afterwards. *)
Theorem guard_defined_afterwards st :
  keeps_guard mpich2io_h →
  is_Some (macros (final (include_header mpich2io_h st))
             !! PyMPI_CONFIG_MPICH2_H).
Proof. apply include_header_sets_guard. Qed.

(** X11.  With an [mpich2io.h] that does not undefine the guard,
    including the header any number of times, from any state of the
    unit, is including it once. *)
Theorem include_many_is_once n st :
  keeps_guard mpich2io_h →
  (0 < n)%nat →
  include_times mpich2io_h n st = include_header mpich2io_h st.
Proof.
  intros Hkeep Hn. destruct n as [|n]; [lia|]. by apply include_times_once.
Qed.






(** X7.  The three markers go together: a processing that completes has
    defined all of them or none. *)
Theorem markers_all_or_none env st n1 n2 :
  process mpich2io_h env = Done st →
  n1 ∈ markers → n2 ∈ markers →
  times (defines n1) (log st) = times (defines n2) (log st).
Proof.
  intros Hdone H1 H2.
  pose proof (process_defines env n1 H1) as E1.
  pose proof (process_defines env n2 H2) as E2.
  rewrite Hdone in E1, E2. cbn [final] in E1, E2. by rewrite E1, E2.
Qed.

(** X8.  The decision of line 5 is monotone in the version, for versions
    that are integer constants.  Of two builds that agree on whether the
    guard and [MS_WINDOWS] are defined, the one with the lower version
    number, or with none, gets the markers whenever the other does. *)
Theorem lower_version_keeps_markers env1 env2 z2 name :
  is_defined PyMPI_CONFIG_MPICH2_H env1 = is_defined PyMPI_CONFIG_MPICH2_H env2 →
  is_defined MS_WINDOWS env1 = is_defined MS_WINDOWS env2 →
  env2 !! MPICH2_NUMVERSION = Some (IntConst z2) →
  z2 < 2 ^ 63 →
  (env1 !! MPICH2_NUMVERSION = None
   ∨ ∃ z1, env1 !! MPICH2_NUMVERSION = Some (IntConst z1) ∧ z1 ≤ z2) →
  name ∈ markers →
  (times (defines name) (log (final (process mpich2io_h env2)))
   ≤ times (defines name) (log (final (process mpich2io_h env1))))%nat.
Proof.
  intros Hg Hw Hv2 Hr2 Hv1 Hin. rewrite !process_defines by done.
  rewrite (line5_constant (mk_state env2 []) z2) by done.
  cbn [macros kept]. rewrite <- Hg, <- Hw.
  destruct (negb (is_defined PyMPI_CONFIG_MPICH2_H env1)); cbn [andb]; [|lia].
  destruct Hv1 as [Hv1|(z1 & Hv1 & Hle)].
  - rewrite line5_undefined by done. cbn [macros kept].
    destruct (is_defined MS_WINDOWS env1); cbn [andb]; [|lia].
    destruct (z2 <? 10100000); lia.
  - rewrite (line5_constant _ z1) by (done || lia). cbn [macros kept].
    destruct (is_defined MS_WINDOWS env1); cbn [andb]; [|lia].
    destruct (N.ltb_spec z2 10100000) as [Hz|Hz]; [|lia].
    rewrite (proj2 (N.ltb_lt z1 10100000)) by lia. lia.
Qed.

(** X9.  Whatever the table, and however it ends, an inclusion does
    nothing but some of lines 2, 6, 7, 8 and 13, each at most once and in
    that order: it defines no other macro, gives the markers no value but
    [1], and includes no file but [mpich2io.h]. *)
Theorem header_events_only st :
  ∃ evs,
    log (final (include_header mpich2io_h st)) = log st ++ evs
    ∧ sublist evs header_events.
Proof.
  rewrite final_include_header.
  destruct (is_defined PyMPI_CONFIG_MPICH2_H (macros st)).
  { exists []. split; [by rewrite app_nil_r|apply sublist_nil_l]. }
  rewrite after_line14_log, after_line10_log, <- app_assoc.
  eexists. split; [done|].
  unfold header_events, markers.
  destruct (kept (line5 st)), (is_defined ROMIO_VERSION (macros st));
    cbn [map app];
    repeat first [apply sublist_nil_l | apply sublist_skip
                 | apply sublist_cons].
Qed.


End Header.

(** * The header at work *)

(** ** The sample [mpich2io.h] and the sample translator *)

Lemma guarded_io_keeps_guard : keeps_guard guarded_io.
Proof.
  intros m [body Hm]. exists body. unfold guarded_io.
  by apply lookup_union_Some_l.
Qed.

Lemma guarded_io_keeps_markers : keeps_markers guarded_io.
Proof.
  intros m name Hin. unfold guarded_io.
  destruct (m !! name) as [body|] eqn:Hm.
  - by apply lookup_union_Some_l.
  - rewrite lookup_union_r by done.
    apply lookup_singleton_ne. each_marker Hin; done.
Qed.

Lemma guarded_io_only_adds : only_adds guarded_io.
Proof. intros m. apply map_union_subseteq_l. Qed.

Lemma own_macros_fresh (m : macro_table) :
  Forall (λ n, m !! n = None) own_macros →
  ∀ name, name ∈ own_macros → m !! name = None.
Proof. intros H. by apply Forall_forall. Qed.

#[local] Existing Instance skipping.

Ltac with_guarded_io H :=
  let st := fresh "st" in
  let Hdone := fresh "Hdone" in
  let Hlog := fresh "Hlog" in
  let Htable := fresh "Htable" in
  destruct H as (st & Hdone & Hlog & Htable);
  [ ..
  | exists st; split; [exact Hdone|]; split; [exact Hlog|];
    exact (Htable guarded_io_keeps_markers) ].

(** ** Windows, MPICH2 1.0.8: the markers appear *)

Lemma markers_defined_iff_witness :
  (∀ name, name ∈ markers →
     is_Some (macros (final (process guarded_io windows_1_0_8)) !! name)
     ↔ is_Some (windows_1_0_8 !! MS_WINDOWS) ∧ version_below windows_1_0_8)
  ∧ (∀ n name, name ∈ markers →
       (times (defines name)
          (log (final (include_times guarded_io n
                         (mk_state windows_1_0_8 []))))
        ≤ 1)%nat).
Proof.
  destruct (markers_defined_iff guarded_io windows_1_0_8) as [Hiff Hmost].
  split.
  - apply Hiff.
    + exact guarded_io_keeps_markers.
    + apply own_macros_fresh. repeat constructor.
    + left. right. exists 10008000. split; [reflexivity|lia].
  - exact (Hmost guarded_io_keeps_guard).
Defined.

Lemma old_version_defines_markers_witness :
  ∃ st, process guarded_io windows_1_0_8 = Done st ∧
    (∀ name, name ∈ markers → times (defines name) (log st) = 1%nat) ∧
    (∀ name, name ∈ markers → macros st !! name = Some (IntConst 1)).
Proof.
  assert (H := old_version_defines_markers guarded_io windows_1_0_8 10008000).
  with_guarded_io H.
  - reflexivity.
  - by eexists.
  - reflexivity.
  - lia.
Defined.

(** ** Windows, no version number: line 5 is satisfied all the same *)

Lemma no_version_defines_markers_witness :
  holds version_test windows_unversioned = mk_decision true None ∧
  ∃ st, process guarded_io windows_unversioned = Done st ∧
    (∀ name, name ∈ markers → times (defines name) (log st) = 1%nat) ∧
    (∀ name, name ∈ markers → macros st !! name = Some (IntConst 1)).
Proof.
  destruct (no_version_defines_markers guarded_io windows_unversioned)
    as [Htest H].
  - by eexists.
  - reflexivity.
  - split; [exact Htest|]. with_guarded_io H. reflexivity.
Defined.

(** ** Windows, MPICH2 1.4.1p1, and other platforms: no marker *)

Lemma recent_version_defines_none_witness :
  ∃ st, process guarded_io windows_1_4_1 = Done st ∧
    (∀ name, name ∈ markers → times (defines name) (log st) = 0%nat) ∧
    (∀ name, name ∈ markers → macros st !! name = windows_1_4_1 !! name).
Proof.
  assert (H := recent_version_defines_none guarded_io windows_1_4_1 10401301).
  with_guarded_io H.
  - by eexists.
  - reflexivity.
  - lia.
  - reflexivity.
Defined.

Lemma other_platform_defines_none_witness :
  ∃ st, process guarded_io posix_1_0_8 = Done st ∧
    (∀ name, name ∈ markers → times (defines name) (log st) = 0%nat) ∧
    (∀ name, name ∈ markers → macros st !! name = posix_1_0_8 !! name).
Proof.
  assert (H := other_platform_defines_none guarded_io posix_1_0_8).
  with_guarded_io H. reflexivity.
Defined.

(** ** [mpich2io.h] *)

Lemma romio_present_no_include_witness :
  times (includes mpich2io_h_name) (log (final (process guarded_io with_romio)))
  = 0%nat.
Proof.
  apply (romio_present_no_include guarded_io with_romio).
  by eexists.
Defined.


(** ** Twice is once *)

Lemma process_twice_is_once_witness :
  process guarded_io windows_1_0_8 >>> include_header guarded_io
  = process guarded_io windows_1_0_8.
Proof.
  apply (process_twice_is_once guarded_io windows_1_0_8).
  exact guarded_io_keeps_guard.
Defined.

(** ** Two builds that differ in platform and version, two that differ
    in ROMIO *)


(** ** Nothing is lost *)

Lemma header_only_adds_witness :
  let st := final (process guarded_io windows_1_0_8) in
  (∀ name body, windows_1_0_8 !! name = Some body → name ∉ markers →
                macros st !! name = Some body)
  ∧ (∀ name body, windows_1_0_8 !! name = Some body → name ∈ markers →
                  macros st !! name = Some body
                  ∨ macros st !! name = Some (IntConst 1))
  ∧ ∃ m : macro_table,
      (macros st = m ∨ macros st = guarded_io m)
      ∧ ∀ name body, m !! name = Some body →
          windows_1_0_8 !! name = Some body
          ∨ (name = PyMPI_CONFIG_MPICH2_H ∧ body = Blank)
          ∨ (name ∈ markers ∧ body = IntConst 1).
Proof.
  apply (header_only_adds guarded_io windows_1_0_8).
  exact guarded_io_only_adds.
Defined.

(** ** Where the claims as first stated fail *)

(** C1 as first stated fails on the second pass through the header: the
    platform and version conditions hold, line 1 skips the file, and the
    markers are not defined.  It fails where a marker was defined before
    the header was seen: the marker is defined afterwards on a platform
    without [MS_WINDOWS].  And it fails where the version macro is an
    expression: [0x1000000 | 0x20] has the value 16777248, no less than
    10100000, but line 5 reads [0x1000000 | 0x20 < 10100000], that is
    [0x1000000 | 1], and the markers are defined. *)
Lemma markers_defined_iff_counterexample :
  (is_Some (past_guard windows_1_0_8 !! MS_WINDOWS)
   ∧ version_below (past_guard windows_1_0_8)
   ∧ macros (final (process guarded_io (past_guard windows_1_0_8)))
       !! PyMPI_MISSING_MPI_TYPE_CREATE_F90_INTEGER = None)
  ∧ (with_integer_1 posix_1_0_8 !! MS_WINDOWS = None
     ∧ macros (final (process guarded_io (with_integer_1 posix_1_0_8)))
         !! PyMPI_MISSING_MPI_TYPE_CREATE_F90_INTEGER = Some (IntConst 1))
  ∧ (windows_flags_version !! PyMPI_CONFIG_MPICH2_H = None
     ∧ windows_flags_version !! PyMPI_MISSING_MPI_TYPE_CREATE_F90_INTEGER
       = None
     ∧ windows_flags_version !! MPICH2_NUMVERSION
       = Some (Object flags_version)
     ∧ evaluate ∅ flags_version = Some 16777248
     ∧ 10100000 ≤ 16777248
     ∧ macros (final (process guarded_io windows_flags_version))
         !! PyMPI_MISSING_MPI_TYPE_CREATE_F90_INTEGER = Some (IntConst 1)).
Proof.
  repeat split.
  - by eexists.
  - right. exists 10008000. split; [reflexivity|lia].
  - lia.
Qed.

(** C2 as first stated fails on the second pass: Windows, version 1.0.8,
    and the header defines nothing.  And it fails where the version macro
    is an expression: [5 == 5] has the value 1, below 10100000, but line 5
    reads [5 == 5 < 10100000], that is [5 == 1], and no marker is
    defined. *)
Lemma old_version_defines_markers_counterexample :
  (is_Some (past_guard windows_1_0_8 !! MS_WINDOWS)
   ∧ past_guard windows_1_0_8 !! MPICH2_NUMVERSION = Some (IntConst 10008000)
   ∧ 10008000 < 10100000
   ∧ process guarded_io (past_guard windows_1_0_8)
     = Done (mk_state (past_guard windows_1_0_8) [])
   ∧ past_guard windows_1_0_8
       !! PyMPI_MISSING_MPI_TYPE_CREATE_F90_INTEGER = None)
  ∧ (is_Some (windows_equal_version !! MS_WINDOWS)
     ∧ windows_equal_version !! PyMPI_CONFIG_MPICH2_H = None
     ∧ windows_equal_version !! MPICH2_NUMVERSION
       = Some (Object equal_version)
     ∧ evaluate ∅ equal_version = Some 1
     ∧ 1 < 10100000
     ∧ ∃ st, process guarded_io windows_equal_version = Done st
        ∧ log st = [ Defined PyMPI_CONFIG_MPICH2_H Blank;
                     Included mpich2io_h_name ]
        ∧ macros st !! PyMPI_MISSING_MPI_TYPE_CREATE_F90_INTEGER = None
        ∧ macros st !! PyMPI_MISSING_MPI_TYPE_CREATE_F90_REAL = None
        ∧ macros st !! PyMPI_MISSING_MPI_TYPE_CREATE_F90_COMPLEX = None).
Proof.
  repeat split; by eexists.
Qed.

(** C3 as first stated fails where the version macro is an expression.
    [0x1000000 | 0x20] has the value 16777248 and [1 ? 20000000 : 0] the
    value 20000000, both no less than 10100000; line 5 reads
    [0x1000000 | 0x20 < 10100000] and [1 ? 20000000 : 0 < 10100000], the
    comparison binding tighter than [|] and [?:], and is satisfied: the
    three markers are defined. *)
Lemma recent_version_defines_none_counterexample :
  (is_Some (windows_flags_version !! MS_WINDOWS)
   ∧ windows_flags_version !! MPICH2_NUMVERSION = Some (Object flags_version)
   ∧ evaluate ∅ flags_version = Some 16777248
   ∧ 10100000 ≤ 16777248
   ∧ ∃ st, process guarded_io windows_flags_version = Done st
      ∧ ∀ name, name ∈ markers →
          times (defines name) (log st) = 1%nat
          ∧ macros st !! name = Some (IntConst 1))
  ∧ (is_Some (windows_conditional_version !! MS_WINDOWS)
     ∧ windows_conditional_version !! MPICH2_NUMVERSION
       = Some (Object conditional_version)
     ∧ evaluate ∅ conditional_version = Some 20000000
     ∧ 10100000 ≤ 20000000
     ∧ ∃ st, process guarded_io windows_conditional_version = Done st
        ∧ ∀ name, name ∈ markers →
            times (defines name) (log st) = 1%nat
            ∧ macros st !! name = Some (IntConst 1)).
Proof.
  repeat split; try (by eexists); try lia.
  - eexists. split; [by vm_compute|].
    intros name Hin. each_marker Hin; by vm_compute.
  - eexists. split; [by vm_compute|].
    intros name Hin. each_marker Hin; by vm_compute.
Qed.

(** C5 as first stated fails on the second pass: Windows, no version
    number, and the header defines nothing. *)
Lemma no_version_defines_markers_counterexample :
  is_Some (past_guard windows_unversioned !! MS_WINDOWS)
  ∧ past_guard windows_unversioned !! MPICH2_NUMVERSION = None
  ∧ process guarded_io (past_guard windows_unversioned)
    = Done (mk_state (past_guard windows_unversioned) [])
  ∧ past_guard windows_unversioned
      !! PyMPI_MISSING_MPI_TYPE_CREATE_F90_INTEGER = None.
Proof.
  repeat split; by eexists.
Qed.



(** C10 as first stated fails where a marker has a replacement list of
    its own before the header is seen: on Windows with MPICH2 1.0.8 line
    6 gives it the replacement list [1]. *)
Lemma header_only_adds_counterexample :
  only_adds guarded_io
  ∧ with_integer_2 windows_1_0_8
      !! PyMPI_MISSING_MPI_TYPE_CREATE_F90_INTEGER = Some (IntConst 2)
  ∧ ∃ st, process guarded_io (with_integer_2 windows_1_0_8) = Done st
     ∧ macros st !! PyMPI_MISSING_MPI_TYPE_CREATE_F90_INTEGER
       = Some (IntConst 1).
Proof.
  split; [exact guarded_io_only_adds|]. split; [reflexivity|].
  eexists. split; by vm_compute.
Qed.

(** ** The further properties at work *)

Lemma guarded_header_inert_witness :
  include_times guarded_io 3
    (mk_state (past_guard windows_blank_version) [])
  = Done (mk_state (past_guard windows_blank_version) []).
Proof.
  apply (guarded_header_inert guarded_io 3
           (mk_state (past_guard windows_blank_version) [])).
  by eexists.
Defined.

Lemma guard_defined_afterwards_witness :
  is_Some (macros (final (include_header guarded_io
                            (mk_state windows_blank_version [])))
             !! PyMPI_CONFIG_MPICH2_H).
Proof.
  apply (guard_defined_afterwards guarded_io
           (mk_state windows_blank_version [])).
  exact guarded_io_keeps_guard.
Defined.

Lemma include_many_is_once_witness :
  include_times guarded_io 3 (mk_state windows_1_0_8 [])
  = include_header guarded_io (mk_state windows_1_0_8 []).
Proof.
  apply (include_many_is_once guarded_io 3 (mk_state windows_1_0_8 [])).
  - exact guarded_io_keeps_guard.
  - lia.
Defined.






Lemma markers_all_or_none_witness :
  times (defines PyMPI_MISSING_MPI_TYPE_CREATE_F90_INTEGER)
    (log (final (process guarded_io windows_1_0_8)))
  = times (defines PyMPI_MISSING_MPI_TYPE_CREATE_F90_COMPLEX)
      (log (final (process guarded_io windows_1_0_8))).
Proof.
  apply (markers_all_or_none guarded_io windows_1_0_8
           (final (process guarded_io windows_1_0_8))).
  - by vm_compute.
  - unfold markers. by left.
  - unfold markers. right. right. by left.
Defined.

Lemma lower_version_keeps_markers_witness :
  (times (defines PyMPI_MISSING_MPI_TYPE_CREATE_F90_REAL)
     (log (final (process guarded_io windows_1_4_1)))
   ≤ times (defines PyMPI_MISSING_MPI_TYPE_CREATE_F90_REAL)
       (log (final (process guarded_io windows_1_0_8))))%nat.
Proof.
  apply (lower_version_keeps_markers guarded_io windows_1_0_8 windows_1_4_1
           10401301).
  - reflexivity.
  - reflexivity.
  - reflexivity.
  - reflexivity.
  - right. exists 10008000. split; [reflexivity|lia].
  - unfold markers. right. by left.
Defined.

